(** * Result: tagged ok/error values and their throw-based adapters

    A shallow embedding of [src/index.ts] (the later revision of the module,
    the one that exports [unwrapSync], [unwrap], [assert], [catchErr] and
    [catchErrSync]) together with the properties its specification states.

    Modelling conventions.
    - A JavaScript object is the finite map of its own enumerable data
      properties, keyed by property name.
    - A function call either returns a value or throws one ([completion]).
    - An [async] function is described by the eventual state of the promise
      it returns: resolved, rejected, or never settled.
    - Callbacks, filters and failure producers are total: each call
      returns or throws.
    - Field values are data. Objects carry no methods or accessors, so
      reading a field has no effect and no result object is a thenable.
    - Numbers are restricted to the integer-valued ones. *)

From stdpp Require Import base option strings gmap fin_maps.
From Stdlib Require Import ZArith.

Local Open Scope string_scope.

(** ** Values *)

(** The three states an awaited promise can be observed in. *)
Inductive promise_state (V : Type) : Type :=
  | PFulfilled (v : V)
  | PRejected (reason : V)
  | PPending.
Arguments PFulfilled {V} v.
Arguments PRejected {V} reason.
Arguments PPending {V}.

(** JavaScript values, as far as the module can observe them. *)
#[warnings="-register-all"]
Inductive val : Type :=
  | VUndefined
  | VNull
  | VBool (b : bool)
  | VNum (n : Z)
  | VStr (s : string)
  | VError (name message : string)      (* new Error(message) and its kin *)
  | VObj (fields : gmap string val)
  | VPromise (p : promise_state val).

(** Objects: own enumerable properties. *)
Abbreviation obj := (gmap string val).

(** [o.k]: reading an absent property yields [undefined]. *)
Definition get (o : obj) (k : string) : val := default VUndefined (o !! k).

(** ToBoolean. *)
Definition truthy (v : val) : bool :=
  match v with
  | VUndefined | VNull => false
  | VBool b => b
  | VNum n => negb (n =? 0)%Z
  | VStr s => match s with EmptyString => false | _ => true end
  | VError _ _ | VObj _ | VPromise _ => true
  end.

Definition nullish (v : val) : bool :=
  match v with
  | VUndefined | VNull => true
  | _ => false
  end.

(** [a ?? b] *)
Definition coalesce (a b : val) : val := if nullish a then b else a.

(** [{ ...target, ...source }]: the properties of [source] are copied over
    those already set; spreading [undefined] copies nothing. *)
Definition spread (target : obj) (source : option obj) : obj :=
  match source with
  | None => target
  | Some src => src ∪ target
  end.

(** ** Control flow *)

(** Outcome of a synchronous call. *)
Inductive completion (A : Type) : Type :=
  | Return (a : A)
  | Throw (signal : val).
Arguments Return {A} a.
Arguments Throw {A} signal.

(** Outcome of an [async] function: the fate of the promise it returns. *)
Inductive async (A : Type) : Type :=
  | Resolve (a : A)
  | Reject (signal : val)
  | Suspended.
Arguments Resolve {A} a.
Arguments Reject {A} signal.
Arguments Suspended {A}.

#[global] Instance completion_ret : MRet completion := @Return.
#[global] Instance completion_bind : MBind completion := λ A B k m,
  match m with
  | Return a => k a
  | Throw s => Throw s
  end.

#[global] Instance async_ret : MRet async := @Resolve.
#[global] Instance async_bind : MBind async := λ A B k m,
  match m with
  | Resolve a => k a
  | Reject s => Reject s
  | Suspended => Suspended
  end.

(** [try { body } catch (caught) { handler }] *)
Definition try_catch {A} (body : completion A) (handler : val → completion A)
  : completion A :=
  match body with
  | Return a => Return a
  | Throw caught => handler caught
  end.

Definition try_catch_async {A} (body : async A) (handler : val → async A)
  : async A :=
  match body with
  | Reject caught => handler caught
  | _ => body
  end.

(** Synchronous code running inside an [async] body. *)
Definition now {A} (c : completion A) : async A :=
  match c with
  | Return a => Resolve a
  | Throw s => Reject s
  end.

(** [await v] *)
Definition await (v : val) : async val :=
  match v with
  | VPromise (PFulfilled x) => Resolve x
  | VPromise (PRejected r) => Reject r
  | VPromise PPending => Suspended
  | _ => Resolve v
  end.

(** [f?.(x)]: [undefined] when [f] is absent. *)
Definition opt_call {A} (f : option (A → completion val)) (x : A)
  : completion val :=
  match f with
  | None => Return VUndefined
  | Some g => g x
  end.

(** ** The module *)

(** [export function ok(value?: object): Ok] *)
Definition ok (value : option obj) : obj :=
  spread {[ "ok" := VBool true ]} value.

(** [export function err(error?: object): Err] *)
Definition err (error : option obj) : obj :=
  spread {[ "ok" := VBool false ]} error.

(** [export function when(isOk: boolean, value?: object): Result] *)
Definition when (isOk : bool) (value : option obj) : obj :=
  if isOk then ok value else err value.

Definition unwrapped_error : val := VError "Error" "Error was unwrapped".
Definition asserted_error : val := VError "Error" "Error was asserted".

(** [export function unwrapSync(result, elseThrow?)] *)
Definition unwrapSync (result : obj) (elseThrow : option (obj → completion val))
  : completion obj :=
  if truthy (get result "ok") then Return result
  else
    thrown ← opt_call elseThrow result;
    Throw (coalesce thrown unwrapped_error).

(** [export async function unwrap(result, elseThrow?)] *)
Definition unwrap (result : obj) (elseThrow : option (obj → completion val))
  : async obj :=
  if truthy (get result "ok") then Resolve result
  else
    produced ← now (opt_call elseThrow result);
    thrown ← await produced;
    Reject (coalesce thrown unwrapped_error).

(** [export function assert(result, elseThrow?)] *)
Definition assert (result : obj) (elseThrow : option (obj → completion val))
  : completion unit :=
  if truthy (get result "ok") then Return tt
  else
    thrown ← opt_call elseThrow result;
    Throw (coalesce thrown asserted_error).

(** The [catch (caught) { ... }] block shared by both adapters. *)
Definition on_caught (test : option (val → completion val)) (caught : val)
  : completion obj :=
  verdict ← opt_call test caught;
  if truthy verdict then Return (err (Some {[ "caught" := caught ]}))
  else Throw caught.

(** [export async function catchErr(cb, test?)] *)
Definition catchErr (cb : unit → completion val)
    (test : option (val → completion val)) : async obj :=
  try_catch_async
    (returned ← now (cb tt);
     value ← await returned;
     Resolve (ok (Some {[ "value" := value ]})))
    (λ caught, now (on_caught test caught)).

(** [export function catchErrSync(cb, test?)] *)
Definition catchErrSync (cb : unit → completion val)
    (test : option (val → completion val)) : completion obj :=
  try_catch
    (value ← cb tt;
     Return (ok (Some {[ "value" := value ]})))
    (on_caught test).

(** ** Payloads that redefine the discriminant

    The constructors spread the payload after writing [ok], so a payload
    field that is itself called [ok] replaces the discriminant. *)

(** The payload's own [ok] field, if it has one. *)
Definition discriminant_override (value : option obj) : option val :=
  value ≫= (.!! "ok").

(** [ok value] still tests as a success. *)
Definition stays_ok (value : option obj) : bool :=
  from_option truthy true (discriminant_override value).

(** [err value] still tests as a failure. *)
Definition stays_err (value : option obj) : bool :=
  negb (from_option truthy false (discriminant_override value)).

(** ** What it means for a callback to raise or to produce *)

(** [await cb()] throws [S]: either the call throws, or it returns a promise
    that rejects with [S]. *)
Definition raises_async (cb : unit → completion val) (S : val) : Prop :=
  cb tt = Throw S ∨ cb tt = Return (VPromise (PRejected S)).

(** [await cb()] evaluates to [V]. *)
Definition resolves_to (cb : unit → completion val) (V : val) : Prop :=
  ∃ returned, cb tt = Return returned ∧ await returned = Resolve V.

(** ** Sample inputs

    The end-to-end scenarios of the specification, and a few payloads and
    callbacks used to exercise the statements below. *)

Definition count_three : obj := {[ "count" := VNum 3 ]}.
Definition too_small : obj := {[ "reason" := VStr "too small" ]}.

(** Payloads that carry a field named [ok] of their own. *)
Definition claims_failure : obj := {[ "ok" := VBool false ]}.
Definition claims_success : obj := {[ "ok" := VBool true ]}.
Definition tagged_count : obj := {[ "ok" := VBool false; "count" := VNum 3 ]}.

(** [() => { throw "boom" }] *)
Definition throw_boom : unit → completion val := λ _, Throw (VStr "boom").
(** [() => { throw new RangeError() }] *)
Definition throw_range : unit → completion val :=
  λ _, Throw (VError "RangeError" "").
(** [async () => { throw "boom" }] *)
Definition reject_boom : unit → completion val :=
  λ _, Return (VPromise (PRejected (VStr "boom"))).
(** [() => 42] and [async () => 42] *)
Definition return_42 : unit → completion val := λ _, Return (VNum 42).
Definition resolve_42 : unit → completion val :=
  λ _, Return (VPromise (PFulfilled (VNum 42))).

(** [(e) => typeof e === "number"] and [(e) => typeof e === "string"] *)
Definition is_number : val → completion val :=
  λ e, Return (VBool match e with VNum _ => true | _ => false end).
Definition is_string : val → completion val :=
  λ e, Return (VBool match e with VStr _ => true | _ => false end).

(** Failure producers: [(r) => r.reason], [() => null], and the
    asynchronous [async (r) => r.reason], [async () => undefined]. *)
Definition reason_of : obj → completion val := λ r, Return (get r "reason").
Definition produce_null : obj → completion val := λ _, Return VNull.
Definition reason_later : obj → completion val :=
  λ r, Return (VPromise (PFulfilled (get r "reason"))).
Definition undefined_later : obj → completion val :=
  λ _, Return (VPromise (PFulfilled VUndefined)).

(** ** The earlier revision

    The file keeps an earlier revision of the module beside the later one.
    [ok], [err], [when], [catchErr] and [catchErrSync] read the same in
    both; the earlier [unwrap] and [assert] are synchronous and take the
    value to throw itself rather than a function producing it. *)

Module Legacy.

(** [export function unwrap<T>(result: Result<T>, elseThrow?: unknown)] *)
Definition unwrap (result : obj) (elseThrow : option val) : completion obj :=
  if truthy (get result "ok") then Return result
  else Throw (coalesce (default VUndefined elseThrow) unwrapped_error).

(** [export function assert<T>(result: Result<T>, elseThrow?: unknown)] *)
Definition assert (result : obj) (elseThrow : option val) : completion unit :=
  if truthy (get result "ok") then Return tt
  else Throw (coalesce (default VUndefined elseThrow) asserted_error).

End Legacy.

(** ** Further vocabulary and inputs *)

(** [v instanceof Promise] *)
Definition is_promise (v : val) : bool :=
  match v with
  | VPromise _ => true
  | _ => false
  end.

(** [() => { throw null }] and [async (r) => { throw r.reason }] *)
Definition produce_throw_null : obj → completion val := λ _, Throw VNull.
Definition reject_later : obj → completion val :=
  λ r, Return (VPromise (PRejected (get r "reason"))).
(** [() => new Promise(() => {})], as a producer and as a callback *)
Definition never_produce : obj → completion val :=
  λ _, Return (VPromise PPending).
Definition never_settles : unit → completion val :=
  λ _, Return (VPromise PPending).
(** [(e) => e.caught] *)
Definition caught_of : obj → completion val := λ e, Return (get e "caught").
(** [() => true], [async (e) => typeof e === "number"] and
    [() => { throw "bad filter" }] *)
Definition accept_all : val → completion val := λ _, Return (VBool true).
Definition async_is_number : val → completion val :=
  λ e, Return (VPromise (PFulfilled
                 (VBool match e with VNum _ => true | _ => false end))).
Definition broken_filter : val → completion val :=
  λ _, Throw (VStr "bad filter").
(** [() => ({ ok: false })] and [() => { throw null }] *)
Definition return_failure_object : unit → completion val :=
  λ _, Return (VObj claims_failure).
Definition throw_null : unit → completion val := λ _, Throw VNull.

(** [await cb()] *)
Definition awaited_call (cb : unit → completion val) : async val :=
  returned ← now (cb tt); await returned.

(** Case analysis on what an optional call, and an awaited value, come to. *)
Ltac outcomes :=
  repeat match goal with
  | |- context [opt_call ?f ?x] => destruct (opt_call f x) as [[| | | | | | |[| |]]|] eqn:?
  end; simpl.

(** * Properties *)

(** ** Object spread *)

Lemma spread_lookup (target : obj) (source : option obj) (k : string) :
  spread target source !! k =
    match source ≫= (.!! k) with
    | Some v => Some v
    | None => target !! k
    end.
Proof.
  destruct source as [src|]; simpl; [|done].
  rewrite lookup_union.
  by destruct (src !! k), (target !! k).
Qed.

Lemma spread_keeps_source (target src : obj) (k : string) (v : val) :
  src !! k = Some v → spread target (Some src) !! k = Some v.
Proof. intros Hk. by rewrite spread_lookup; simpl; rewrite Hk. Qed.

Lemma spread_other_key (d : val) (source : option obj) (k : string) :
  k ≠ "ok" → spread {[ "ok" := d ]} source !! k = source ≫= (.!! k).
Proof.
  intros Hk. rewrite spread_lookup.
  destruct (source ≫= (.!! k)); [done|].
  by rewrite lookup_singleton_ne.
Qed.

Lemma spread_discriminant (d : val) (source : option obj) :
  spread {[ "ok" := d ]} source !! "ok" =
    Some (default d (discriminant_override source)).
Proof.
  rewrite spread_lookup. unfold discriminant_override.
  destruct (source ≫= (.!! "ok")); [done|].
  by rewrite lookup_singleton_eq.
Qed.

Lemma get_ok_discriminant (value : option obj) :
  get (ok value) "ok" = default (VBool true) (discriminant_override value).
Proof. unfold get, ok. by rewrite spread_discriminant. Qed.

Lemma get_err_discriminant (error : option obj) :
  get (err error) "ok" = default (VBool false) (discriminant_override error).
Proof. unfold get, err. by rewrite spread_discriminant. Qed.

Lemma ok_truthy (value : option obj) :
  truthy (get (ok value) "ok") = stays_ok value.
Proof.
  rewrite get_ok_discriminant. unfold stays_ok.
  by destruct (discriminant_override value).
Qed.

Lemma err_truthy (error : option obj) :
  truthy (get (err error) "ok") = negb (stays_err error).
Proof.
  rewrite get_err_discriminant. unfold stays_err.
  destruct (discriminant_override error); simpl; [|done].
  by rewrite negb_involutive.
Qed.

(** The two results the adapters build never clash with the discriminant. *)
Lemma ok_value_shape (V : val) :
  ok (Some {[ "value" := V ]}) = {[ "ok" := VBool true; "value" := V ]}.
Proof.
  unfold ok, spread. rewrite <- insert_union_singleton_l.
  apply insert_insert_ne. done.
Qed.

Lemma err_caught_shape (S : val) :
  err (Some {[ "caught" := S ]}) = {[ "ok" := VBool false; "caught" := S ]}.
Proof.
  unfold err, spread. rewrite <- insert_union_singleton_l.
  apply insert_insert_ne. done.
Qed.

(** ** The [catch] block *)

Lemma on_caught_no_test (S : val) : on_caught None S = Throw S.
Proof. reflexivity. Qed.

Lemma on_caught_verdict (test : val → completion val) (S verdict : val) :
  test S = Return verdict →
  on_caught (Some test) S =
    if truthy verdict then Return (err (Some {[ "caught" := S ]})) else Throw S.
Proof. intros Ht. unfold on_caught; simpl. by rewrite Ht. Qed.

Lemma catchErrSync_raised cb test (S : val) :
  cb tt = Throw S → catchErrSync cb test = on_caught test S.
Proof. intros Hcb. unfold catchErrSync. by rewrite Hcb. Qed.

Lemma catchErr_raised cb test (S : val) :
  raises_async cb S → catchErr cb test = now (on_caught test S).
Proof. intros [Hcb|Hcb]; unfold catchErr; by rewrite Hcb. Qed.

(** ** Constructors *)

(** C2, as stated, fails: a payload with its own [ok] field decides the
    discriminant, so [ok({ ok: false })] reads as a failure and
    [err({ ok: true })] as a success. *)
Lemma discriminant_can_be_overridden :
  ok (Some claims_failure) !! "ok" = Some (VBool false) ∧
  err (Some claims_success) !! "ok" = Some (VBool true) ∧
  when true (Some claims_failure) !! "ok" = Some (VBool false).
Proof. by vm_compute. Qed.

(** C2 (amended): every value built by [ok], [err] or [when] has the
    discriminant field; when the payload is absent or has no field named
    [ok], the discriminant is [true] exactly for [ok] and [when true] and
    [false] exactly for [err] and [when false]; a payload field named [ok]
    takes the discriminant's place. *)
Theorem discriminant_reflects_variant (value : option obj) :
  (is_Some (ok value !! "ok") ∧ is_Some (err value !! "ok") ∧
   ∀ b, is_Some (when b value !! "ok")) ∧
  (discriminant_override value = None →
     ok value !! "ok" = Some (VBool true) ∧
     err value !! "ok" = Some (VBool false) ∧
     ∀ b, when b value !! "ok" = Some (VBool b)) ∧
  (∀ v, discriminant_override value = Some v →
     ok value !! "ok" = Some v ∧ err value !! "ok" = Some v).
Proof.
  unfold when, ok, err.
  split_and!.
  - rewrite spread_discriminant. eauto.
  - rewrite spread_discriminant. eauto.
  - intros []; rewrite spread_discriminant; eauto.
  - intros Hnone. rewrite !spread_discriminant, Hnone. simpl.
    split_and!; [done..|]. intros []; by rewrite spread_discriminant, Hnone.
  - intros v Hv. by rewrite !spread_discriminant, Hv.
Qed.

Lemma discriminant_reflects_variant_witness :
  ok (Some count_three) !! "ok" = Some (VBool true) ∧
  err (Some too_small) !! "ok" = Some (VBool false) ∧
  when false None !! "ok" = Some (VBool false).
Proof.
  destruct (discriminant_reflects_variant (Some count_three)) as (_ & Hc & _).
  destruct (discriminant_reflects_variant (Some too_small)) as (_ & Hs & _).
  destruct (discriminant_reflects_variant None) as (_ & Hn & _).
  split_and!.
  - apply Hc. reflexivity.
  - apply Hs. reflexivity.
  - apply Hn. reflexivity.
Defined.

(** C6, as stated, fails: the fields of the payload do appear unchanged, but
    one of them may be [ok], and then the discriminant is not the variant's. *)
Lemma payload_ok_field_wins :
  get (ok (Some tagged_count)) "ok" = VBool false ∧
  get (ok (Some tagged_count)) "count" = VNum 3 ∧
  get (err (Some claims_success)) "ok" = VBool true.
Proof. by vm_compute. Qed.

(** C6 (amended): for every payload object [P], every field of [P] appears
    unchanged on [ok(P)] and on [err(P)], at the same level as the
    discriminant and with nothing else added; when [P] has no field named
    [ok] the discriminant is the success value on [ok(P)] and the failure
    value on [err(P)]; without a payload each constructor produces just the
    discriminant. *)
Theorem constructors_merge_payload (P : obj) :
  (∀ k v, P !! k = Some v →
     ok (Some P) !! k = Some v ∧ err (Some P) !! k = Some v) ∧
  (∀ k, k ≠ "ok" →
     ok (Some P) !! k = P !! k ∧ err (Some P) !! k = P !! k) ∧
  (P !! "ok" = None →
     ok (Some P) !! "ok" = Some (VBool true) ∧
     err (Some P) !! "ok" = Some (VBool false)) ∧
  ok None = {[ "ok" := VBool true ]} ∧
  err None = {[ "ok" := VBool false ]}.
Proof.
  split_and!; [| | |done..].
  - intros k v Hk. unfold ok, err. eauto using spread_keeps_source.
  - intros k Hk. unfold ok, err. by rewrite !spread_other_key.
  - intros Hfresh. unfold ok, err.
    rewrite !spread_discriminant. simpl. by rewrite Hfresh.
Qed.

Lemma constructors_merge_payload_witness :
  ok (Some count_three) !! "count" = Some (VNum 3) ∧
  ok (Some count_three) !! "ok" = Some (VBool true) ∧
  err (Some too_small) !! "ok" = Some (VBool false).
Proof.
  destruct (constructors_merge_payload count_three) as (Hf & _ & Hc & _).
  destruct (constructors_merge_payload too_small) as (_ & _ & Hs & _).
  split_and!.
  - apply Hf. reflexivity.
  - apply Hc. reflexivity.
  - apply Hs. reflexivity.
Defined.

(** The end-to-end scenarios for the constructors. *)
Example ok_count_three :
  ok (Some count_three) = {[ "ok" := VBool true; "count" := VNum 3 ]}.
Proof. reflexivity. Qed.

Example when_too_small :
  when (5 <? 2)%Z (Some too_small)
    = {[ "ok" := VBool false; "reason" := VStr "too small" ]}.
Proof. reflexivity. Qed.

(** C7: [when(true, P)] is [ok(P)] and [when(false, P)] is [err(P)], with or
    without a payload; the payload given is the one attached. *)
Theorem when_selects_constructor (value : option obj) :
  when true value = ok value ∧ when false value = err value.
Proof. split; reflexivity. Qed.

(** ** Unwrapping and asserting *)

Section FailedResult.
Variable result : obj.
Hypothesis result_failed : truthy (get result "ok") = false.

Lemma unwrapSync_failure (elseThrow : option (obj → completion val)) :
  unwrapSync result elseThrow =
    thrown ← opt_call elseThrow result; Throw (coalesce thrown unwrapped_error).
Proof. unfold unwrapSync. by rewrite result_failed. Qed.

Lemma unwrap_failure (elseThrow : option (obj → completion val)) :
  unwrap result elseThrow =
    produced ← now (opt_call elseThrow result);
    thrown ← await produced;
    Reject (coalesce thrown unwrapped_error).
Proof. unfold unwrap. by rewrite result_failed. Qed.

Lemma assert_failure (elseThrow : option (obj → completion val)) :
  assert result elseThrow =
    thrown ← opt_call elseThrow result; Throw (coalesce thrown asserted_error).
Proof. unfold assert. by rewrite result_failed. Qed.

Variable produce : obj → completion val.

Lemma unwrapSync_produced (v : val) :
  produce result = Return v →
  unwrapSync result (Some produce) = Throw (coalesce v unwrapped_error).
Proof. intros Hv. rewrite unwrapSync_failure. simpl. by rewrite Hv. Qed.

Lemma assert_produced (v : val) :
  produce result = Return v →
  assert result (Some produce) = Throw (coalesce v asserted_error).
Proof. intros Hv. rewrite assert_failure. simpl. by rewrite Hv. Qed.

Lemma unwrap_produced (r v : val) :
  produce result = Return r → await r = Resolve v →
  unwrap result (Some produce) = Reject (coalesce v unwrapped_error).
Proof.
  intros Hr Hv. rewrite unwrap_failure. simpl.
  rewrite Hr. simpl. unfold mbind, async_bind. by rewrite Hv.
Qed.

End FailedResult.

Lemma coalesce_defined (v d : val) : nullish v = false → coalesce v d = v.
Proof. intros Hv. unfold coalesce. by rewrite Hv. Qed.

Lemma coalesce_nullish (v d : val) : nullish v = true → coalesce v d = d.
Proof. intros Hv. unfold coalesce. by rewrite Hv. Qed.

Lemma err_falsy (P : option obj) :
  stays_err P = true → truthy (get (err P) "ok") = false.
Proof. intros HP. by rewrite err_truthy, HP. Qed.

(** C8, as stated, fails: [ok({ ok: false })] is rejected by both forms of
    unwrap instead of being handed back. *)
Lemma unwrap_rejects_overridden_ok :
  unwrapSync (ok (Some claims_failure)) None = Throw unwrapped_error ∧
  unwrap (ok (Some claims_failure)) None = Reject unwrapped_error.
Proof. by vm_compute. Qed.

(** C8 (amended): for every payload [P] that has no falsy field named [ok]
    (in particular for no payload at all), [unwrapSync(ok(P))] returns
    [ok(P)] unchanged and the promise returned by [unwrap(ok(P))] resolves
    to [ok(P)], whatever failure producer is passed. *)
Theorem unwrap_ok_identity (P : option obj) (elseThrow : option (obj → completion val)) :
  stays_ok P = true →
  unwrapSync (ok P) elseThrow = Return (ok P) ∧
  unwrap (ok P) elseThrow = Resolve (ok P).
Proof.
  intros HP. unfold unwrapSync, unwrap.
  by rewrite ok_truthy, HP.
Qed.

Lemma unwrap_ok_identity_witness :
  unwrapSync (ok (Some count_three)) (Some produce_null)
    = Return {[ "ok" := VBool true; "count" := VNum 3 ]} ∧
  unwrap (ok (Some count_three)) (Some produce_null)
    = Resolve {[ "ok" := VBool true; "count" := VNum 3 ]}.
Proof.
  apply (unwrap_ok_identity (Some count_three) (Some produce_null)).
  reflexivity.
Defined.

(** C3, as stated, fails twice over: [err({ ok: true })] is returned rather
    than raised, and a producer that returns [null] gets the default Error
    raised in place of its return value. *)
Lemma unwrap_err_not_always_as_stated :
  unwrapSync (err (Some claims_success)) None = Return claims_success ∧
  unwrap (err (Some claims_success)) None = Resolve claims_success ∧
  unwrapSync (err None) (Some produce_null) = Throw unwrapped_error ∧
  unwrap (err None) (Some produce_null) = Reject unwrapped_error ∧
  unwrapped_error ≠ VNull.
Proof. by vm_compute. Qed.

(** C3 (amended): for every payload [P] that has no truthy field named [ok],
    both forms of unwrap raise on [err(P)]: without a failure producer the
    raised value is the default Error "Error was unwrapped"; with a producer
    whose return value on [err(P)] (awaited first, in the asynchronous form)
    is neither [null] nor [undefined], the raised value is that value. *)
Theorem unwrap_err_raises (P : option obj) :
  stays_err P = true →
  unwrapSync (err P) None = Throw unwrapped_error ∧
  unwrap (err P) None = Reject unwrapped_error ∧
  (∀ produce v,
     produce (err P) = Return v → nullish v = false →
     unwrapSync (err P) (Some produce) = Throw v) ∧
  (∀ produce r v,
     produce (err P) = Return r → await r = Resolve v → nullish v = false →
     unwrap (err P) (Some produce) = Reject v).
Proof.
  intros HP. apply err_falsy in HP.
  split_and!.
  - by rewrite unwrapSync_failure.
  - by rewrite unwrap_failure.
  - intros produce v Hv Hdef.
    by rewrite (unwrapSync_produced _ HP produce v), coalesce_defined.
  - intros produce r v Hr Hv Hdef.
    by rewrite (unwrap_produced _ HP produce r v), coalesce_defined.
Qed.

Lemma unwrap_err_raises_witness :
  unwrapSync (err (Some too_small)) None = Throw unwrapped_error ∧
  unwrap (err (Some too_small)) None = Reject unwrapped_error ∧
  unwrapSync (err (Some too_small)) (Some reason_of) = Throw (VStr "too small") ∧
  unwrap (err (Some too_small)) (Some reason_later) = Reject (VStr "too small").
Proof.
  destruct (unwrap_err_raises (Some too_small) eq_refl)
    as (Hsync & Hasync & Hproduced & Hawaited).
  split_and!.
  - exact Hsync.
  - exact Hasync.
  - apply Hproduced; reflexivity.
  - apply (Hawaited reason_later (VPromise (PFulfilled (VStr "too small"))));
      reflexivity.
Defined.

(** C9, as stated, fails: [assert(ok({ ok: false }))] raises,
    [assert(err({ ok: true }))] returns, and a producer returning
    [undefined] gets the default Error raised instead of its return value. *)
Lemma assert_not_always_as_stated :
  assert (ok (Some claims_failure)) None = Throw asserted_error ∧
  assert (err (Some claims_success)) None = Return tt ∧
  assert (err None) (Some (λ _, Return VUndefined)) = Throw asserted_error ∧
  asserted_error ≠ VUndefined.
Proof. by vm_compute. Qed.

(** C9 (amended): for every payload [P] with no falsy field named [ok],
    [assert(ok(P))] returns nothing and does not raise; for every payload [P]
    with no truthy field named [ok], [assert(err(P))] raises the default
    Error "Error was asserted" when no producer is given, and the producer's
    return value when one is given and that value is neither [null] nor
    [undefined]. *)
Theorem assert_contract (P : option obj) :
  (stays_ok P = true → ∀ elseThrow, assert (ok P) elseThrow = Return tt) ∧
  (stays_err P = true →
     assert (err P) None = Throw asserted_error ∧
     ∀ produce v,
       produce (err P) = Return v → nullish v = false →
       assert (err P) (Some produce) = Throw v).
Proof.
  split.
  - intros HP elseThrow. unfold assert. by rewrite ok_truthy, HP.
  - intros HP. apply err_falsy in HP. split.
    + by rewrite assert_failure.
    + intros produce v Hv Hdef.
      by rewrite (assert_produced _ HP produce v), coalesce_defined.
Qed.

Lemma assert_contract_witness :
  assert (ok (Some too_small)) (Some reason_of) = Return tt ∧
  assert (err (Some too_small)) None = Throw asserted_error ∧
  assert (err (Some too_small)) (Some reason_of) = Throw (VStr "too small").
Proof.
  destruct (assert_contract (Some too_small)) as (Hok & Herr).
  destruct (Herr eq_refl) as (Hdefault & Hproduced).
  split_and!.
  - apply Hok. reflexivity.
  - exact Hdefault.
  - apply Hproduced; reflexivity.
Defined.

(** C10: on a failed result, a failure producer whose return value is [null]
    or [undefined] makes [unwrapSync] and [assert] raise their default Error,
    not that value; likewise [unwrap] when the awaited return value is
    [null] or [undefined]. *)
Theorem nullish_producer_falls_back (result : obj) (produce : obj → completion val) (r : val) :
  truthy (get result "ok") = false →
  produce result = Return r →
  (nullish r = true →
     unwrapSync result (Some produce) = Throw unwrapped_error ∧
     assert result (Some produce) = Throw asserted_error) ∧
  (∀ v, await r = Resolve v → nullish v = true →
     unwrap result (Some produce) = Reject unwrapped_error).
Proof.
  intros Hfalsy Hr. split.
  - intros Hnull.
    rewrite (unwrapSync_produced _ Hfalsy produce r) by done.
    rewrite (assert_produced _ Hfalsy produce r) by done.
    by rewrite !coalesce_nullish.
  - intros v Hv Hnull.
    by rewrite (unwrap_produced _ Hfalsy produce r v), coalesce_nullish.
Qed.

Lemma nullish_producer_falls_back_witness :
  (unwrapSync (err (Some too_small)) (Some produce_null) = Throw unwrapped_error ∧
   assert (err (Some too_small)) (Some produce_null) = Throw asserted_error) ∧
  unwrap (err (Some too_small)) (Some produce_null) = Reject unwrapped_error ∧
  unwrap (err (Some too_small)) (Some undefined_later) = Reject unwrapped_error.
Proof.
  destruct (nullish_producer_falls_back (err (Some too_small)) produce_null
              VNull eq_refl eq_refl) as (Hsync & Hasync).
  destruct (nullish_producer_falls_back (err (Some too_small)) undefined_later
              (VPromise (PFulfilled VUndefined)) eq_refl eq_refl) as (_ & Hlater).
  split; [|split].
  - apply Hsync. reflexivity.
  - apply (Hasync VNull); reflexivity.
  - apply (Hlater VUndefined); reflexivity.
Defined.

(** ** Adapting thrown signals *)

(** C5: a callback that produces [V] without raising makes [catchErrSync]
    return [Ok({ value: V })], that is [{ ok: true, value: V }]; [catchErr]
    resolves to the same for the awaited return value [V] of its callback.
    The filter plays no part. *)
Theorem catch_wraps_value cb (test : option (val → completion val)) (V : val) :
  (cb tt = Return V →
     catchErrSync cb test = Return (ok (Some {[ "value" := V ]}))) ∧
  (resolves_to cb V →
     catchErr cb test = Resolve (ok (Some {[ "value" := V ]}))) ∧
  ok (Some {[ "value" := V ]}) = {[ "ok" := VBool true; "value" := V ]}.
Proof.
  split_and!.
  - intros Hcb. unfold catchErrSync. by rewrite Hcb.
  - intros (returned & Hcb & Hawait). unfold catchErr.
    rewrite Hcb. simpl. unfold mbind, async_bind. by rewrite Hawait.
  - apply ok_value_shape.
Qed.

Lemma catch_wraps_value_witness :
  catchErrSync return_42 None = Return {[ "ok" := VBool true; "value" := VNum 42 ]} ∧
  catchErr resolve_42 (Some is_number)
    = Resolve {[ "ok" := VBool true; "value" := VNum 42 ]}.
Proof.
  destruct (catch_wraps_value return_42 None (VNum 42)) as (Hsync & _ & _).
  destruct (catch_wraps_value resolve_42 (Some is_number) (VNum 42))
    as (_ & Hasync & _).
  split.
  - apply Hsync. reflexivity.
  - apply Hasync. exists (VPromise (PFulfilled (VNum 42))). split; reflexivity.
Defined.

(** C4: when the callback raises [S] and a filter [test] is provided, both
    adapters return [Err({ caught: S })] if [test(S)] is true and re-raise
    [S] itself if [test(S)] is false. *)
Theorem catch_filters_signal cb (test : val → completion val) (S : val) :
  (cb tt = Throw S →
     (test S = Return (VBool true) →
        catchErrSync cb (Some test) = Return (err (Some {[ "caught" := S ]}))) ∧
     (test S = Return (VBool false) →
        catchErrSync cb (Some test) = Throw S)) ∧
  (raises_async cb S →
     (test S = Return (VBool true) →
        catchErr cb (Some test) = Resolve (err (Some {[ "caught" := S ]}))) ∧
     (test S = Return (VBool false) →
        catchErr cb (Some test) = Reject S)) ∧
  err (Some {[ "caught" := S ]}) = {[ "ok" := VBool false; "caught" := S ]}.
Proof.
  split_and!.
  - intros Hcb. rewrite (catchErrSync_raised _ _ S) by done.
    split; intros Ht.
    + by rewrite (on_caught_verdict _ _ (VBool true)).
    + by rewrite (on_caught_verdict _ _ (VBool false)).
  - intros Hcb. rewrite (catchErr_raised _ _ S) by done.
    split; intros Ht.
    + by rewrite (on_caught_verdict _ _ (VBool true)).
    + by rewrite (on_caught_verdict _ _ (VBool false)).
  - apply err_caught_shape.
Qed.

Lemma catch_filters_signal_witness :
  catchErrSync throw_boom (Some is_string)
    = Return {[ "ok" := VBool false; "caught" := VStr "boom" ]} ∧
  catchErrSync throw_boom (Some is_number) = Throw (VStr "boom") ∧
  catchErr reject_boom (Some is_string)
    = Resolve {[ "ok" := VBool false; "caught" := VStr "boom" ]} ∧
  catchErr throw_boom (Some is_number) = Reject (VStr "boom").
Proof.
  destruct (catch_filters_signal throw_boom is_string (VStr "boom"))
    as (Hsync_yes & _ & _).
  destruct (catch_filters_signal throw_boom is_number (VStr "boom"))
    as (Hsync_no & Hasync_no & _).
  destruct (catch_filters_signal reject_boom is_string (VStr "boom"))
    as (_ & Hasync_yes & _).
  split_and!.
  - apply Hsync_yes; reflexivity.
  - apply Hsync_no; reflexivity.
  - apply Hasync_yes; [right|]; reflexivity.
  - apply Hasync_no; [left|]; reflexivity.
Defined.

(** With the filter left out, the [catch] block finds no verdict and throws
    what it caught: nothing is ever converted to an [Err]. *)
Lemma catch_without_test_rethrows cb (S : val) :
  (cb tt = Throw S → catchErrSync cb None = Throw S) ∧
  (raises_async cb S → catchErr cb None = Reject S).
Proof.
  split; intros Hcb.
  - by rewrite (catchErrSync_raised _ _ S).
  - by rewrite (catchErr_raised _ _ S).
Qed.

(** C1 does not hold of the code: [catchErrSync(() => { throw "boom" })] and
    [catchErr] of the same callback, called without a filter, let ["boom"]
    escape instead of returning [Err({ caught: "boom" })]; the same happens
    to the [RangeError] of the specification's third scenario. *)
Theorem catch_without_test_lets_signal_escape :
  catchErrSync throw_boom None = Throw (VStr "boom") ∧
  catchErr throw_boom None = Reject (VStr "boom") ∧
  catchErr reject_boom None = Reject (VStr "boom") ∧
  catchErrSync throw_range None = Throw (VError "RangeError" "") ∧
  catchErrSync throw_boom None ≠ Return (err (Some {[ "caught" := VStr "boom" ]})).
Proof. by vm_compute. Qed.

(** * Further properties of the code *)

(** ** Constructors applied to objects that already carry [ok] *)

Lemma spread_absorbed (d : val) (P : obj) :
  is_Some (P !! "ok") → spread {[ "ok" := d ]} (Some P) = P.
Proof.
  intros [v Hv]. apply map_eq. intros k. rewrite spread_lookup. simpl.
  destruct (P !! k) eqn:Hk; [done|].
  rewrite lookup_singleton_ne; [done|]. congruence.
Qed.

(** X1: a payload that already has a field named [ok] comes back from both
    constructors exactly as it went in: nothing is added and nothing is
    changed. *)
Theorem constructors_absorb_tagged_payload (P : obj) :
  is_Some (P !! "ok") → ok (Some P) = P ∧ err (Some P) = P.
Proof. intros HP. unfold ok, err. by rewrite !spread_absorbed. Qed.

Lemma constructors_absorb_tagged_payload_witness :
  ok (Some tagged_count) = tagged_count ∧ err (Some tagged_count) = tagged_count.
Proof.
  apply (constructors_absorb_tagged_payload tagged_count).
  exists (VBool false). reflexivity.
Defined.

(** X2: wrapping a result again does nothing, whichever constructor is used:
    [err(ok(P))] is still [ok(P)] and [ok(err(P))] is still [err(P)]. *)
Theorem rewrapping_keeps_variant (value : option obj) :
  ok (Some (ok value)) = ok value ∧ err (Some (ok value)) = ok value ∧
  ok (Some (err value)) = err value ∧ err (Some (err value)) = err value.
Proof.
  assert (is_Some (ok value !! "ok")) as Hok
    by (unfold ok; rewrite spread_discriminant; eauto).
  assert (is_Some (err value !! "ok")) as Herr
    by (unfold err; rewrite spread_discriminant; eauto).
  split_and!.
  - unfold ok at 1. by apply spread_absorbed.
  - unfold err at 1. by apply spread_absorbed.
  - unfold ok at 1. by apply spread_absorbed.
  - unfold err at 1. by apply spread_absorbed.
Qed.

(** X3: [ok] and [err] build the same object from the same payload exactly
    when that payload has a field named [ok]; otherwise the two results
    differ. *)
Theorem constructors_coincide_iff_tagged (value : option obj) :
  ok value = err value ↔ is_Some (discriminant_override value).
Proof.
  split.
  - intros Heq.
    assert (ok value !! "ok" = err value !! "ok") as Hd by (by rewrite Heq).
    unfold ok, err in Hd. rewrite !spread_discriminant in Hd.
    destruct (discriminant_override value); [eauto|]. simpl in Hd. congruence.
  - destruct value as [P|]; [|by intros [? ?]].
    intros HP. unfold ok, err. by rewrite !spread_absorbed.
Qed.

(** X4: a payload without a field named [ok] is recovered from either
    variant by dropping the discriminant. *)
Theorem payload_recovered (P : obj) :
  P !! "ok" = None →
  delete "ok" (ok (Some P)) = P ∧ delete "ok" (err (Some P)) = P.
Proof.
  intros HP. unfold ok, err, spread.
  rewrite !delete_union, !delete_singleton_eq, !(right_id_L ∅ (∪)).
  by rewrite delete_id.
Qed.

Lemma payload_recovered_witness :
  delete "ok" (ok (Some too_small)) = too_small ∧
  delete "ok" (err (Some too_small)) = too_small.
Proof. apply (payload_recovered too_small). reflexivity. Defined.

(** X5: the field names of [when(b, P)] are those of [P] together with [ok],
    for either value of [b]; without a payload, [ok] alone. *)
Theorem when_field_names (b : bool) (value : option obj) :
  dom (when b value) = {[ "ok" ]} ∪ from_option dom ∅ value.
Proof.
  assert (∀ d : val, dom (spread {[ "ok" := d ]} value)
                       = {[ "ok" ]} ∪ from_option dom ∅ value) as Hdom.
  { intros d. destruct value as [P|]; simpl.
    - rewrite dom_union_L, dom_singleton_L. apply (comm_L (∪)).
    - by rewrite dom_singleton_L, (right_id_L ∅ (∪)). }
  destruct b; apply Hdom.
Qed.

(** ** Unwrapping and asserting arbitrary result objects *)

Lemma unwrapSync_success (result : obj) (elseThrow : option (obj → completion val)) :
  truthy (get result "ok") = true → unwrapSync result elseThrow = Return result.
Proof. intros Hd. unfold unwrapSync. by rewrite Hd. Qed.

(** X6: [unwrapSync] and [unwrap] hand back their input and nothing else,
    and they do so exactly when the input's [ok] field is truthy; a failure
    producer never turns a failed result into a returned one. *)
Theorem unwrap_returns_only_input (result : obj) (elseThrow : option (obj → completion val)) :
  (∀ r, unwrapSync result elseThrow = Return r →
     r = result ∧ truthy (get result "ok") = true) ∧
  (∀ r, unwrap result elseThrow = Resolve r →
     r = result ∧ truthy (get result "ok") = true) ∧
  (truthy (get result "ok") = true →
     unwrapSync result elseThrow = Return result ∧
     unwrap result elseThrow = Resolve result).
Proof.
  unfold unwrapSync, unwrap.
  destruct (truthy (get result "ok")) eqn:Hd.
  - split_and!; [intros r [= <-]; done .. | done].
  - split_and!; [| |done]; intros r; outcomes; discriminate.
Qed.

Lemma unwrap_returns_only_input_witness :
  unwrapSync {[ "ok" := VNum 1 ]} (Some produce_null) = Return {[ "ok" := VNum 1 ]} ∧
  unwrap {[ "ok" := VNum 1 ]} (Some produce_null) = Resolve {[ "ok" := VNum 1 ]}.
Proof.
  destruct (unwrap_returns_only_input {[ "ok" := VNum 1 ]} (Some produce_null))
    as (_ & _ & Hret).
  apply Hret. reflexivity.
Defined.

(** X7: an object with no [ok] field at all counts as a failure: without a
    producer, [unwrapSync], [unwrap] and [assert] raise their default
    Error on it. *)
Theorem missing_discriminant_is_failure (result : obj) :
  result !! "ok" = None →
  unwrapSync result None = Throw unwrapped_error ∧
  unwrap result None = Reject unwrapped_error ∧
  assert result None = Throw asserted_error.
Proof.
  intros Hmissing.
  assert (truthy (get result "ok") = false) as Hfalsy
    by (unfold get; by rewrite Hmissing).
  by rewrite unwrapSync_failure, unwrap_failure, assert_failure.
Qed.

Lemma missing_discriminant_is_failure_witness :
  unwrapSync ∅ None = Throw unwrapped_error ∧
  unwrap count_three None = Reject unwrapped_error ∧
  assert too_small None = Throw asserted_error.
Proof.
  split_and!.
  - apply (missing_discriminant_is_failure ∅). reflexivity.
  - apply (missing_discriminant_is_failure count_three). reflexivity.
  - apply (missing_discriminant_is_failure too_small). reflexivity.
Defined.

(** X8: when the failure producer itself throws, its signal is what reaches
    the caller, as it is: the default Error is not substituted, not even for
    a thrown [null]. *)
Theorem producer_throw_propagates (result : obj) (produce : obj → completion val) (s : val) :
  truthy (get result "ok") = false →
  produce result = Throw s →
  unwrapSync result (Some produce) = Throw s ∧
  assert result (Some produce) = Throw s ∧
  unwrap result (Some produce) = Reject s.
Proof.
  intros Hfalsy Hs.
  rewrite unwrapSync_failure, assert_failure, unwrap_failure by done.
  simpl. by rewrite Hs.
Qed.

Lemma producer_throw_propagates_witness :
  unwrapSync (err None) (Some produce_throw_null) = Throw VNull ∧
  assert (err None) (Some produce_throw_null) = Throw VNull ∧
  unwrap (err None) (Some produce_throw_null) = Reject VNull.
Proof.
  apply (producer_throw_propagates (err None) produce_throw_null VNull);
    reflexivity.
Defined.

(** X9: the synchronous forms do not await: given an asynchronous producer,
    [unwrapSync] and [assert] throw the promise it returned, whatever state
    that promise is in. *)
Theorem sync_forms_throw_the_promise (result : obj) (produce : obj → completion val)
    (p : promise_state val) :
  truthy (get result "ok") = false →
  produce result = Return (VPromise p) →
  unwrapSync result (Some produce) = Throw (VPromise p) ∧
  assert result (Some produce) = Throw (VPromise p).
Proof.
  intros Hfalsy Hp.
  by rewrite (unwrapSync_produced _ Hfalsy produce (VPromise p)),
             (assert_produced _ Hfalsy produce (VPromise p)).
Qed.

Lemma sync_forms_throw_the_promise_witness :
  unwrapSync (err (Some too_small)) (Some reason_later)
    = Throw (VPromise (PFulfilled (VStr "too small"))) ∧
  assert (err (Some too_small)) (Some reason_later)
    = Throw (VPromise (PFulfilled (VStr "too small"))).
Proof.
  apply (sync_forms_throw_the_promise (err (Some too_small)) reason_later
           (PFulfilled (VStr "too small"))); reflexivity.
Defined.

(** X10: [unwrap] awaits the producer's promise before raising: if that
    promise rejects, the rejection reason is raised as it is (no default is
    substituted); if it never settles, neither does the promise [unwrap]
    returned. *)
Theorem unwrap_awaits_producer (result : obj) (produce : obj → completion val) :
  truthy (get result "ok") = false →
  (∀ s, produce result = Return (VPromise (PRejected s)) →
     unwrap result (Some produce) = Reject s) ∧
  (produce result = Return (VPromise PPending) →
     unwrap result (Some produce) = Suspended).
Proof.
  intros Hfalsy. rewrite unwrap_failure by done. simpl.
  split; [intros s|]; intros Hp; by rewrite Hp.
Qed.

Lemma unwrap_awaits_producer_witness :
  unwrap (err (Some too_small)) (Some reject_later) = Reject (VStr "too small") ∧
  unwrap (err None) (Some reject_later) = Reject VUndefined ∧
  unwrap (err None) (Some never_produce) = Suspended.
Proof.
  destruct (unwrap_awaits_producer (err (Some too_small)) reject_later eq_refl)
    as (Hrej & _).
  destruct (unwrap_awaits_producer (err None) reject_later eq_refl)
    as (Hundef & _).
  destruct (unwrap_awaits_producer (err None) never_produce eq_refl)
    as (_ & Hnever).
  split_and!.
  - apply Hrej. reflexivity.
  - apply Hundef. reflexivity.
  - apply Hnever. reflexivity.
Defined.

(** X11: as long as the producer (if any) does not return a promise, the
    promise returned by [unwrap] settles the way [unwrapSync] completes:
    resolved with what it returns, rejected with what it throws. *)
Theorem unwrap_agrees_with_unwrapSync (result : obj) (elseThrow : option (obj → completion val)) :
  (∀ v, opt_call elseThrow result = Return v → is_promise v = false) →
  unwrap result elseThrow = now (unwrapSync result elseThrow).
Proof.
  intros Hplain. unfold unwrap, unwrapSync.
  destruct (truthy (get result "ok")); [done|].
  destruct (opt_call elseThrow result) as [v|s]; simpl; [|done].
  specialize (Hplain v eq_refl). by destruct v.
Qed.

Lemma unwrap_agrees_with_unwrapSync_witness :
  unwrap (err (Some too_small)) (Some reason_of)
    = now (unwrapSync (err (Some too_small)) (Some reason_of)).
Proof.
  apply (unwrap_agrees_with_unwrapSync (err (Some too_small)) (Some reason_of)).
  intros v [= <-]. reflexivity.
Defined.

(** X12: [assert] returns exactly when [unwrapSync] does, and whatever
    [assert] raises is either what [unwrapSync] raises on the same
    arguments or its own default Error. *)
Theorem assert_mirrors_unwrapSync (result : obj) (elseThrow : option (obj → completion val)) :
  (assert result elseThrow = Return tt ↔
     unwrapSync result elseThrow = Return result) ∧
  (∀ s, assert result elseThrow = Throw s →
     s = asserted_error ∨ unwrapSync result elseThrow = Throw s).
Proof.
  unfold assert, unwrapSync.
  destruct (truthy (get result "ok")); [by split|].
  destruct (opt_call elseThrow result) as [v|s']; simpl.
  - split; [done|]. intros s [= <-]. unfold coalesce.
    destruct (nullish v); auto.
  - split; [done|]. intros s [= <-]. auto.
Qed.

Lemma assert_mirrors_unwrapSync_witness :
  assert (ok None) (Some produce_null) = Return tt ∧
  (VStr "too small" = asserted_error ∨
   unwrapSync (err (Some too_small)) (Some reason_of) = Throw (VStr "too small")).
Proof.
  destruct (assert_mirrors_unwrapSync (ok None) (Some produce_null)) as (Hret & _).
  destruct (assert_mirrors_unwrapSync (err (Some too_small)) (Some reason_of))
    as (_ & Hthrow).
  split.
  - apply Hret. reflexivity.
  - apply Hthrow. reflexivity.
Defined.

(** X13: the earlier revision's [unwrap] and [assert], which take the value
    to throw, behave as the later [unwrapSync] and [assert] do when handed
    a producer that returns that value (and no producer when the value is
    omitted). *)
Theorem legacy_is_constant_producer (result : obj) (elseThrow : option val) :
  Legacy.unwrap result elseThrow
    = unwrapSync result ((λ v _, Return v) <$> elseThrow) ∧
  Legacy.assert result elseThrow
    = assert result ((λ v _, Return v) <$> elseThrow).
Proof.
  unfold Legacy.unwrap, Legacy.assert, unwrapSync, assert.
  destruct (truthy (get result "ok")); [done|].
  by destruct elseThrow.
Qed.

(** ** The adapters, case by case *)

Lemma catchErr_by_awaited_call cb (test : option (val → completion val)) :
  catchErr cb test =
    match awaited_call cb with
    | Resolve value => Resolve (ok (Some {[ "value" := value ]}))
    | Reject caught => now (on_caught test caught)
    | Suspended => Suspended
    end.
Proof.
  unfold catchErr, awaited_call.
  destruct (cb tt) as [[| | | | | | |[| |]]|]; reflexivity.
Qed.

Lemma awaited_call_resolve cb (V : val) :
  awaited_call cb = Resolve V ↔ resolves_to cb V.
Proof.
  unfold awaited_call, resolves_to. split.
  - destruct (cb tt) as [returned|]; simpl; [eauto|discriminate].
  - intros (returned & -> & Hawait). done.
Qed.

Lemma awaited_call_reject cb (S : val) :
  awaited_call cb = Reject S ↔ raises_async cb S.
Proof.
  unfold awaited_call, raises_async. split.
  - destruct (cb tt) as [[| | | | | | |[| |]]|]; simpl; intros [= <-]; auto.
  - intros [-> | ->]; done.
Qed.

Lemma awaited_call_suspended cb :
  awaited_call cb = Suspended ↔ cb tt = Return (VPromise PPending).
Proof.
  unfold awaited_call. split.
  - by destruct (cb tt) as [[| | | | | | |[| |]]|].
  - by intros ->.
Qed.

Lemma on_caught_returns test (S : val) (r : obj) :
  on_caught test S = Return r →
  ∃ t verdict, test = Some t ∧ t S = Return verdict ∧ truthy verdict = true ∧
               r = {[ "ok" := VBool false; "caught" := S ]}.
Proof.
  unfold on_caught. destruct test as [t|]; simpl; [|discriminate].
  destruct (t S) as [verdict|] eqn:Ht; simpl; [|discriminate].
  destruct (truthy verdict) eqn:Hv; [|discriminate].
  intros [= <-]. exists t, verdict.
  split_and!; [done..|]. apply err_caught_shape.
Qed.

Lemma on_caught_throws test (S s : val) :
  on_caught test S = Throw s →
  s = S ∨ ∃ t, test = Some t ∧ t S = Throw s.
Proof.
  unfold on_caught. destruct test as [t|]; simpl.
  - destruct (t S) as [verdict|s'] eqn:Ht; simpl.
    + destruct (truthy verdict); [discriminate|]. intros [= <-]. by left.
    + intros [= <-]. right. eauto.
  - intros [= <-]. by left.
Qed.

(** X14: whatever [catchErrSync] returns is one of two shapes: either
    [{ ok: true, value: V }] where the callback returned [V], or
    [{ ok: false, caught: S }] where the callback threw [S] and a filter was
    given that returned a truthy verdict on [S]. It never reports a failure
    for a callback that returned, nor a success for one that threw. *)
Theorem catchErrSync_returns_inversion cb (test : option (val → completion val)) (r : obj) :
  catchErrSync cb test = Return r →
  (∃ V, cb tt = Return V ∧ r = {[ "ok" := VBool true; "value" := V ]}) ∨
  (∃ S t verdict,
     cb tt = Throw S ∧ test = Some t ∧ t S = Return verdict ∧
     truthy verdict = true ∧ r = {[ "ok" := VBool false; "caught" := S ]}).
Proof.
  unfold catchErrSync. destruct (cb tt) as [V|S]; simpl.
  - intros [= <-]. left. exists V. split; [done|apply ok_value_shape].
  - intros (t & verdict & ? & ? & ? & ?)%on_caught_returns.
    right. by exists S, t, verdict.
Qed.

Lemma catchErrSync_returns_inversion_witness :
  (∃ V, return_failure_object tt = Return V ∧
        ok (Some {[ "value" := VObj claims_failure ]})
          = {[ "ok" := VBool true; "value" := V ]}) ∨
  (∃ S t verdict,
     return_failure_object tt = Throw S ∧ Some is_number = Some t ∧
     t S = Return verdict ∧ truthy verdict = true ∧
     ok (Some {[ "value" := VObj claims_failure ]})
       = {[ "ok" := VBool false; "caught" := S ]}).
Proof.
  apply (catchErrSync_returns_inversion return_failure_object (Some is_number)).
  reflexivity.
Defined.

(** X15: whatever [catchErrSync] throws comes from a callback that threw:
    it is the callback's own signal, or else a signal thrown by the filter
    while judging it. A callback that returns never makes [catchErrSync]
    throw. *)
Theorem catchErrSync_throws_inversion cb (test : option (val → completion val)) (s : val) :
  catchErrSync cb test = Throw s →
  ∃ S, cb tt = Throw S ∧ (s = S ∨ ∃ t, test = Some t ∧ t S = Throw s).
Proof.
  unfold catchErrSync. destruct (cb tt) as [V|S]; simpl; [discriminate|].
  intros Hs%on_caught_throws. eauto.
Qed.

Lemma catchErrSync_throws_inversion_witness :
  ∃ S, throw_boom tt = Throw S ∧
       (VStr "boom" = S ∨ ∃ t, Some is_number = Some t ∧ t S = Throw (VStr "boom")).
Proof.
  apply (catchErrSync_throws_inversion throw_boom (Some is_number) (VStr "boom")).
  reflexivity.
Defined.

(** X16: the same for [catchErr]: its promise resolves only to
    [{ ok: true, value: V }] with [V] the awaited return value of the
    callback, or to [{ ok: false, caught: S }] with [S] raised by the
    callback and accepted by a filter; and it rejects only with a signal the
    callback raised or one the filter threw while judging it. *)
Theorem catchErr_settles_inversion cb (test : option (val → completion val)) :
  (∀ r, catchErr cb test = Resolve r →
     (∃ V, resolves_to cb V ∧ r = {[ "ok" := VBool true; "value" := V ]}) ∨
     (∃ S t verdict,
        raises_async cb S ∧ test = Some t ∧ t S = Return verdict ∧
        truthy verdict = true ∧ r = {[ "ok" := VBool false; "caught" := S ]})) ∧
  (∀ s, catchErr cb test = Reject s →
     ∃ S, raises_async cb S ∧ (s = S ∨ ∃ t, test = Some t ∧ t S = Throw s)).
Proof.
  rewrite catchErr_by_awaited_call.
  destruct (awaited_call cb) as [V|S|] eqn:Hcall.
  - apply awaited_call_resolve in Hcall. split; [|discriminate].
    intros r [= <-]. left. exists V. split; [done|apply ok_value_shape].
  - apply awaited_call_reject in Hcall. split.
    + intros r Hr. destruct (on_caught test S) as [r'|] eqn:Hc; [|discriminate].
      injection Hr as <-.
      apply on_caught_returns in Hc as (t & verdict & ? & ? & ? & ?).
      right. by exists S, t, verdict.
    + intros s Hs. destruct (on_caught test S) as [|s'] eqn:Hc; [discriminate|].
      injection Hs as <-. apply on_caught_throws in Hc. eauto.
  - split; discriminate.
Qed.

Lemma catchErr_settles_inversion_witness :
  ∃ S, raises_async reject_boom S ∧
       (VStr "boom" = S ∨ ∃ t, Some is_number = Some t ∧ t S = Throw (VStr "boom")).
Proof.
  destruct (catchErr_settles_inversion reject_boom (Some is_number)) as (_ & Hrej).
  apply Hrej. reflexivity.
Defined.

(** X17: the promise returned by [catchErr] stays pending exactly when the
    callback returns a promise that never settles; in every other case it
    settles, whatever the filter does. *)
Theorem catchErr_pending_iff cb (test : option (val → completion val)) :
  catchErr cb test = Suspended ↔ cb tt = Return (VPromise PPending).
Proof.
  rewrite catchErr_by_awaited_call, <- awaited_call_suspended.
  destruct (awaited_call cb) as [V|S|]; [done| |done].
  by destruct (on_caught test S).
Qed.

Example catchErr_never_settles :
  catchErr never_settles (Some broken_filter) = Suspended.
Proof. reflexivity. Qed.

(** X18: when the filter itself throws while judging a raised signal, the
    filter's signal is what escapes from both adapters; the callback's own
    signal is lost. *)
Theorem filter_throw_escapes cb (test : val → completion val) (S s : val) :
  test S = Throw s →
  (cb tt = Throw S → catchErrSync cb (Some test) = Throw s) ∧
  (raises_async cb S → catchErr cb (Some test) = Reject s).
Proof.
  intros Ht. split; intros Hcb.
  - rewrite (catchErrSync_raised _ _ S) by done.
    unfold on_caught; simpl. by rewrite Ht.
  - rewrite (catchErr_raised _ _ S) by done.
    unfold on_caught; simpl. by rewrite Ht.
Qed.

Lemma filter_throw_escapes_witness :
  catchErrSync throw_boom (Some broken_filter) = Throw (VStr "bad filter") ∧
  catchErr reject_boom (Some broken_filter) = Reject (VStr "bad filter").
Proof.
  destruct (filter_throw_escapes throw_boom broken_filter (VStr "boom")
              (VStr "bad filter") eq_refl) as (Hsync & _).
  destruct (filter_throw_escapes reject_boom broken_filter (VStr "boom")
              (VStr "bad filter") eq_refl) as (_ & Hasync).
  split.
  - apply Hsync. reflexivity.
  - apply Hasync. right. reflexivity.
Defined.

(** X19: the filter's verdict is judged by truthiness and is not awaited:
    any truthy return value catches the signal and any falsy one lets it
    through. In particular an asynchronous filter, which returns a promise,
    catches every signal, whatever that promise resolves to. *)
Theorem filter_verdict_by_truthiness cb (test : val → completion val) (S verdict : val) :
  test S = Return verdict →
  (cb tt = Throw S →
     catchErrSync cb (Some test) =
       if truthy verdict then Return {[ "ok" := VBool false; "caught" := S ]}
       else Throw S) ∧
  (raises_async cb S →
     catchErr cb (Some test) =
       if truthy verdict then Resolve {[ "ok" := VBool false; "caught" := S ]}
       else Reject S) ∧
  (is_promise verdict = true → truthy verdict = true).
Proof.
  intros Ht. split_and!.
  - intros Hcb.
    rewrite (catchErrSync_raised _ _ S), (on_caught_verdict _ _ verdict) by done.
    by rewrite err_caught_shape.
  - intros Hcb.
    rewrite (catchErr_raised _ _ S), (on_caught_verdict _ _ verdict) by done.
    rewrite err_caught_shape. by destruct (truthy verdict).
  - by destruct verdict.
Qed.

Lemma filter_verdict_by_truthiness_witness :
  catchErrSync throw_boom (Some async_is_number)
    = Return {[ "ok" := VBool false; "caught" := VStr "boom" ]} ∧
  catchErr throw_boom (Some async_is_number)
    = Resolve {[ "ok" := VBool false; "caught" := VStr "boom" ]}.
Proof.
  destruct (filter_verdict_by_truthiness throw_boom async_is_number (VStr "boom")
              (VPromise (PFulfilled (VBool false))) eq_refl) as (Hsync & Hasync & _).
  split.
  - apply Hsync. reflexivity.
  - apply Hasync. left. reflexivity.
Defined.

(** X20: when the callback does not return a promise, the promise returned
    by [catchErr] settles the way [catchErrSync] completes on the same
    arguments: resolved with what it returns, rejected with what it
    throws. *)
Theorem catchErr_agrees_with_catchErrSync cb (test : option (val → completion val)) :
  (∀ v, cb tt = Return v → is_promise v = false) →
  catchErr cb test = now (catchErrSync cb test).
Proof.
  intros Hplain. unfold catchErr, catchErrSync.
  destruct (cb tt) as [v|S]; simpl; [|done].
  specialize (Hplain v eq_refl). by destruct v.
Qed.

Lemma catchErr_agrees_with_catchErrSync_witness :
  catchErr throw_boom (Some is_string) = now (catchErrSync throw_boom (Some is_string)).
Proof.
  apply (catchErr_agrees_with_catchErrSync throw_boom (Some is_string)).
  intros v Hv. discriminate Hv.
Defined.

(** X21: catching and then unwrapping with the producer [(e) => e.caught]
    gives the callback's outcome back: a returned [V] arrives as
    [{ ok: true, value: V }], and a thrown [S] that is neither [null] nor
    [undefined] is thrown again, accepted by the filter or not. A thrown
    [null] or [undefined] that the filter accepts comes out as the default
    Error instead. *)
Theorem catch_then_unwrap cb (test : val → completion val) :
  (∀ V, cb tt = Return V →
     (r ← catchErrSync cb (Some test); unwrapSync r (Some caught_of))
       = Return {[ "ok" := VBool true; "value" := V ]}) ∧
  (∀ S verdict, cb tt = Throw S → test S = Return verdict →
     nullish S = false →
     (r ← catchErrSync cb (Some test); unwrapSync r (Some caught_of))
       = Throw S) ∧
  (∀ S verdict, cb tt = Throw S → test S = Return verdict →
     truthy verdict = true → nullish S = true →
     (r ← catchErrSync cb (Some test); unwrapSync r (Some caught_of))
       = Throw unwrapped_error).
Proof.
  assert (∀ S, (r ← Return (err (Some {[ "caught" := S ]}));
                unwrapSync r (Some caught_of))
               = Throw (coalesce S unwrapped_error)) as Hcaught.
  { intros S.
    change (unwrapSync (err (Some {[ "caught" := S ]})) (Some caught_of)
            = Throw (coalesce S unwrapped_error)).
    apply unwrapSync_produced.
    - rewrite get_err_discriminant. unfold discriminant_override. simpl.
      by rewrite lookup_singleton_ne.
    - unfold caught_of, get, err.
      by rewrite (spread_keeps_source _ _ _ S) by apply lookup_singleton_eq. }
  split_and!.
  - intros V Hcb. unfold catchErrSync. rewrite Hcb.
    change (unwrapSync (ok (Some {[ "value" := V ]})) (Some caught_of)
            = Return {[ "ok" := VBool true; "value" := V ]}).
    rewrite <- ok_value_shape.
    apply unwrapSync_success.
    rewrite get_ok_discriminant. unfold discriminant_override. simpl.
    by rewrite lookup_singleton_ne.
  - intros S verdict Hcb Ht Hdef.
    rewrite (catchErrSync_raised _ _ S), (on_caught_verdict _ _ verdict) by done.
    destruct (truthy verdict); [|done].
    by rewrite Hcaught, coalesce_defined.
  - intros S verdict Hcb Ht Hv Hnull.
    rewrite (catchErrSync_raised _ _ S), (on_caught_verdict _ _ verdict) by done.
    by rewrite Hv, Hcaught, coalesce_nullish.
Qed.

Lemma catch_then_unwrap_witness :
  (r ← catchErrSync return_42 (Some is_string); unwrapSync r (Some caught_of))
    = Return {[ "ok" := VBool true; "value" := VNum 42 ]} ∧
  (r ← catchErrSync throw_boom (Some is_string); unwrapSync r (Some caught_of))
    = Throw (VStr "boom") ∧
  (r ← catchErrSync throw_null (Some accept_all); unwrapSync r (Some caught_of))
    = Throw unwrapped_error.
Proof.
  destruct (catch_then_unwrap return_42 is_string) as (Hret & _ & _).
  destruct (catch_then_unwrap throw_boom is_string) as (_ & Hthrow & _).
  destruct (catch_then_unwrap throw_null accept_all) as (_ & _ & Hnull).
  split_and!.
  - apply Hret. reflexivity.
  - apply (Hthrow (VStr "boom") (VBool true)); reflexivity.
  - apply (Hnull VNull (VBool true)); reflexivity.
Defined.
